(** * build-doc.py: clean the documentation directory, then run [cargo doc]

    A shallow embedding of the script [build-doc.py] and of the three library
    calls it makes ([shutil.rmtree], [os.environ.copy] with item assignment on
    the copy, and [subprocess.check_call]), followed by the properties of the
    script.

    The script is two statements in sequence,
<<
    clean_dir()
    cargo_doc()
>>
    and everything it does is an effect on the world outside it: the directory
    tree below the working directory, the environment of the process and the
    child process it starts.  The world is therefore explicit state, threaded
    through a state-and-exception monad, with a trace of the library calls made
    so far. *)

From stdpp Require Import gmap strings list.
From Stdlib Require Import ZArith Ascii.

#[local] Set Warnings "-register-all".

Local Open Scope Z_scope.
Local Open Scope string_scope.
Local Open Scope list_scope.

(** ** Exceptions and outcomes *)

(** The exceptions that the three library calls raise.  All but the last are
    [OSError] or subclasses of it in Python. *)
Inductive exn :=
| FileNotFoundError
| NotADirectoryError
| PermissionError
| OSError (msg : string)
| CalledProcessError (returncode : Z) (cmd : list string).

Inductive outcome (A : Type) :=
| Ret (a : A)
| Raise (e : exn).
Arguments Ret {A} a.
Arguments Raise {A} e.

Definition is_ret {A} (o : outcome A) : bool :=
  match o with Ret _ => true | Raise _ => false end.

(** ** The directory tree *)

(** What [os.lstat] can find at a name.  A directory carries whether entries
    may be removed from it (write and search permission) and its entries in the
    order [os.scandir] yields them.  A symbolic link is a leaf: neither
    [os.lstat] nor the walk of [shutil.rmtree] follows one.

    The tree is the view through directories.  It has no place that a link
    leads to, so a link in a component of a path before the last is not
    followed here; and it does not say whether a directory or a file may be
    read: the walk is taken to be able to open and list what it finds. *)
Inductive node :=
| File
| Symlink (target : string)
| Dir (writable : bool) (entries : list (string * node)).

Definition is_dir (n : node) : bool :=
  match n with Dir _ _ => true | _ => false end.

(** Names in a directory are unique, so the first entry of a name is the
    entry of that name, and removing a name leaves no entry of that name. *)
Fixpoint lookup_entry (name : string) (es : list (string * node)) : option node :=
  match es with
  | [] => None
  | (k, n) :: rest => if decide (k = name) then Some n else lookup_entry name rest
  end.

Definition remove_entry (name : string) (es : list (string * node)) : list (string * node) :=
  filter (λ e, e.1 ≠ name) es.

Fixpoint replace_entry (name : string) (n : node) (es : list (string * node))
  : list (string * node) :=
  match es with
  | [] => []
  | (k, c) :: rest =>
      if decide (k = name) then (k, n) :: rest
      else (k, c) :: replace_entry name n rest
  end.

(** [pathlib.Path(s)] for a relative path: the components between slashes,
    without the empty ones and the dots. *)
Fixpoint split_slash (s : string) : list string :=
  match s with
  | EmptyString => [EmptyString]
  | String c rest =>
      let parts := split_slash rest in
      if Ascii.eqb c "/"%char then EmptyString :: parts
      else match parts with
           | [] => [String c EmptyString]
           | p :: ps => String c p :: ps
           end
  end.

Definition Path (s : string) : list string :=
  filter (λ c, c ≠ "" ∧ c ≠ ".") (split_slash s).

(** [os.lstat(p)] from the working directory [n], for a path through
    directories: a link before the last component is reported like a file
    there. *)
Fixpoint lstat (p : list string) (n : node) : outcome node :=
  match p with
  | [] => Ret n
  | c :: rest =>
      match n with
      | Dir _ es =>
          match lookup_entry c es with
          | None => Raise FileNotFoundError
          | Some ch => lstat rest ch
          end
      | _ => Raise NotADirectoryError
      end
  end.

Definition exists_path (p : list string) (n : node) : bool := is_ret (lstat p n).

(** ** [shutil.rmtree] *)

(** The walk over the entries of one directory, [w] being whether the
    directory lets its entries go.  A subdirectory is emptied by [rec] and then
    removed with [os.rmdir]; anything else is removed with [os.unlink].  The
    first error stops the walk (the default [onerror] re-raises), and what has
    not been removed by then stays.  The result is the entries that are left
    and the error, if any. *)
Fixpoint rmtree_entries (rec : node → node * option exn) (w : bool)
    (es : list (string * node)) : list (string * node) * option exn :=
  match es with
  | [] => ([], None)
  | (name, c) :: rest =>
      match c with
      | Dir _ _ =>
          match rec c with
          | (c', Some e) => ((name, c') :: rest, Some e)
          | (c', None) =>
              if w then rmtree_entries rec w rest
              else ((name, c') :: rest, Some PermissionError)
          end
      | _ =>
          if w then rmtree_entries rec w rest
          else (es, Some PermissionError)
      end
  end.

(** Emptying the directory [n]. *)
Fixpoint rmtree_contents (n : node) : node * option exn :=
  match n with
  | Dir w es =>
      let '(es', err) := rmtree_entries rmtree_contents w es in
      (Dir w es', err)
  | _ => (n, Some NotADirectoryError)
  end.

Definition symlink_msg : string := "Cannot call rmtree on a symbolic link".

(** [shutil.rmtree(name)] inside the directory [n]: the entry has to be a
    directory and not a link; it is emptied and then removed from [n] with
    [os.rmdir], which [n] has to permit.  For a file and for a link [rmtree]
    raises; the exception given here is the one it raises where the path can
    be opened (a file that may be read, a link that leads to something). *)
Definition rmtree_child (name : string) (n : node) : node * option exn :=
  match n with
  | Dir w es =>
      match lookup_entry name es with
      | None => (n, Some FileNotFoundError)
      | Some File => (n, Some NotADirectoryError)
      | Some (Symlink _) => (n, Some (OSError symlink_msg))
      | Some (Dir _ _ as d) =>
          match rmtree_contents d with
          | (d', Some e) => (Dir w (replace_entry name d' es), Some e)
          | (d', None) =>
              if w then (Dir w (remove_entry name es), None)
              else (Dir w (replace_entry name d' es), Some PermissionError)
          end
      end
  | _ => (n, Some NotADirectoryError)
  end.

(** [shutil.rmtree(p)] from the working directory [n].  The empty path is the
    working directory itself, which can be emptied but not removed. *)
Fixpoint rmtree_at (p : list string) (n : node) : node * option exn :=
  match p with
  | [] =>
      match rmtree_contents n with
      | (n', Some e) => (n', Some e)
      | (n', None) => (n', Some (OSError "Invalid argument"))
      end
  | [name] => rmtree_child name n
  | name :: rest =>
      match n with
      | Dir w es =>
          match lookup_entry name es with
          | None => (n, Some FileNotFoundError)
          | Some ch =>
              let '(ch', err) := rmtree_at rest ch in
              (Dir w (replace_entry name ch' es), err)
          end
      | _ => (n, Some NotADirectoryError)
      end
  end.

(** The state that the specification asks for before the documentation tool
    runs: nothing at [p], or a directory with no entries. *)
Definition absent_or_empty (p : list string) (n : node) : bool :=
  match lstat p n with
  | Raise _ => true
  | Ret (Dir _ []) => true
  | Ret _ => false
  end.

(** The directory that holds the last component of [p] lets its entries go. *)
Fixpoint parent_writable (p : list string) (n : node) : bool :=
  match p with
  | [] => false
  | [_] => match n with Dir w _ => w | _ => false end
  | name :: rest =>
      match n with
      | Dir _ es =>
          match lookup_entry name es with
          | Some ch => parent_writable rest ch
          | None => false
          end
      | _ => false
      end
  end.

(** The working directory with the entry [name] set to [o]: absent for
    [None]. *)
Definition with_entry (name : string) (o : option node) (n : node) : node :=
  match n with
  | Dir w es =>
      Dir w (match o with
             | Some x => (name, x) :: remove_entry name es
             | None => remove_entry name es
             end)
  | _ => n
  end.

(** The walk of [rmtree] can empty [n]: every directory in [n] that holds
    something lets its entries go. *)
Fixpoint emptiable (n : node) : bool :=
  match n with
  | Dir w es => forallb (λ e, w && emptiable e.2) es
  | _ => true
  end.


(** ** The world and the monad of the script *)

Abbreviation dict := (gmap string string).

(** A reference to a mapping object: [os.environ] itself, or a [dict] that the
    script has allocated.  Item assignment through [Environ] changes the
    environment of the process. *)
Inductive ref :=
| Environ
| Obj (i : nat).

(** The library calls that are visible from outside, with what they were
    given: for [check_call] the argument vector, the environment handed to the
    child and the directory tree at that moment. *)
Inductive event :=
| EvRmtree (p : list string)
| EvCheckCall (args : list string) (env : dict) (fs : node).

Record world := World {
  cwd : node;
  environ : dict;
  objects : list dict;
  trace : list event
}.

Definition set_cwd (n : node) (w : world) : world :=
  World n (environ w) (objects w) (trace w).
Definition set_environ (e : dict) (w : world) : world :=
  World (cwd w) e (objects w) (trace w).
Definition set_objects (os : list dict) (w : world) : world :=
  World (cwd w) (environ w) os (trace w).
Definition log (ev : event) (w : world) : world :=
  World (cwd w) (environ w) (objects w) (trace w ++ [ev]).

(** A computation changes the world and returns or raises; the world it
    leaves is there in both cases. *)
Definition M (A : Type) : Type := world → outcome A * world.

#[export] Instance M_ret : MRet M := λ A a w, (Ret a, w).
#[export] Instance M_bind : MBind M := λ A B f m w,
  match m w with
  | (Ret a, w') => f a w'
  | (Raise e, w') => (Raise e, w')
  end.

(** How a child process ends: it could not be started (the executable is
    missing, say, and [Popen] raises), or it ran and exited. *)
Inductive child_result :=
| NotStarted (e : exn)
| Exited (returncode : Z).

(** The [check_call] events of a trace. *)
Definition calls (t : list event) : list (list string * dict * node) :=
  omap (λ ev, match ev with
              | EvCheckCall a e n => Some (a, e, n)
              | EvRmtree _ => None
              end) t.

(** What a run of the script adds to the trace. *)
Definition new_events {A} (m : M A) (w : world) : list event :=
  drop (length (trace w)) (trace (m w).2).

(** The exit status of the interpreter: an uncaught exception prints a
    traceback and exits with 1. *)
Definition exit_status {A} (o : outcome A) : Z :=
  match o with Ret _ => 0 | Raise _ => 1 end.

Section Script.

(** The rest of the system: what running an argument vector with an
    environment in a directory tree leads to, and the tree it leaves. *)
Variable run_child : list string → dict → node → child_result * node.

(** *** Library calls *)

Definition shutil_rmtree (p : list string) : M unit := λ w,
  let w := log (EvRmtree p) w in
  match rmtree_at p (cwd w) with
  | (n', None) => (Ret (), set_cwd n' w)
  | (n', Some e) => (Raise e, set_cwd n' w)
  end.

Definition os_environ : ref := Environ.

Definition deref (r : ref) (w : world) : dict :=
  match r with
  | Environ => environ w
  | Obj i => default ∅ (objects w !! i)
  end.

(** [r.copy()]: a new [dict] with the items of [r]. *)
Definition copy (r : ref) : M ref := λ w,
  (Ret (Obj (length (objects w))), set_objects (objects w ++ [deref r w]) w).

(** [r[k] = v]. *)
Definition setitem (r : ref) (k v : string) : M unit := λ w,
  match r with
  | Environ => (Ret (), set_environ (<[k:=v]> (environ w)) w)
  | Obj i => (Ret (), set_objects (alter (insert k v) i (objects w)) w)
  end.

(** [subprocess.check_call(args, env=env)]: start the child, wait for it,
    return 0 if it exited with 0 and raise [CalledProcessError] if not. *)
Definition check_call (args : list string) (env : ref) : M Z := λ w,
  let e := deref env w in
  let w := log (EvCheckCall args e (cwd w)) w in
  match run_child args e (cwd w) with
  | (NotStarted ex, n') => (Raise ex, set_cwd n' w)
  | (Exited rc, n') =>
      if decide (rc = 0) then (Ret 0, set_cwd n' w)
      else (Raise (CalledProcessError rc args), set_cwd n' w)
  end.

(** *** The script *)

Definition clean_dir : M unit :=
  let rsdoc_dir := Path "target/doc" in
  shutil_rmtree rsdoc_dir.

Definition cargo_doc : M unit :=
  env ← copy os_environ;
  setitem env "RUSTDOCFLAGS" "--html-in-header ./katex.html";;
  check_call ["cargo"; "doc"; "--no-deps"] env;;
  mret ().

Definition main : M unit :=
  clean_dir;;
  cargo_doc.

End Script.

(** The world with [./katex.html] set to [o]: absent for [None]. *)
Definition with_katex (o : option node) (w : world) : world :=
  set_cwd (with_entry "katex.html" o (cwd w)) w.

(** The argument vector and the environment of the one child, for the
    statements below. *)
Definition cargo_args : list string := ["cargo"; "doc"; "--no-deps"].
Definition doc_env (e : dict) : dict :=
  <["RUSTDOCFLAGS" := "--html-in-header ./katex.html"]> e.

(** ** Sample worlds *)

Definition sample_doc : node :=
  Dir true [("index.html", File);
            ("latest", Symlink "index.html");
            ("static", Dir true [("main.css", File); ("fonts", Dir true [])])].

Definition sample_cwd : node :=
  Dir true [("katex.html", File);
            ("Cargo.toml", File);
            ("target", Dir true [("debug", Dir true []); ("doc", sample_doc)])].

Definition sample_environ : dict :=
  {[ "PATH" := "/usr/bin"; "RUSTDOCFLAGS" := "-D warnings" ]}.

Definition sample_world : world := World sample_cwd sample_environ [] [].

(** The same with nothing at [target/doc], with a file there, and with a
    link to a file there. *)
Definition world_with_doc (o : option node) : world :=
  World (Dir true [("katex.html", File);
                   ("target", Dir true (match o with
                                        | Some n => [("doc", n)]
                                        | None => []
                                        end))])
        sample_environ [] [].

(** The tree of [sample_world] once [target/doc] is gone. *)
Definition sample_cleaned : node :=
  Dir true [("katex.html", File);
            ("Cargo.toml", File);
            ("target", Dir true [("debug", Dir true [])])].

(** A child that writes one page into [target/doc] and exits with [rc]. *)
Definition sample_child (rc : Z) (args : list string) (env : dict) (n : node)
  : child_result * node :=
  match n with
  | Dir w es =>
      (Exited rc,
       Dir w (replace_entry "target" (Dir true [("doc", Dir true [("index.html", File)])]) es))
  | _ => (Exited rc, n)
  end.

(** A project whose [target] does not let its entries go, and one with a
    locked directory inside [target/doc]. *)
Definition read_only_world : world :=
  World (Dir true [("katex.html", File);
                   ("target", Dir false [("doc", sample_doc)])])
        sample_environ [] [].

Definition locked_world : world :=
  World (Dir true [("katex.html", File);
                   ("target", Dir true [("doc", Dir true [("a", File);
                                                         ("b", Dir false [("x", File)]);
                                                         ("c", File)])])])
        sample_environ [] [].

(** * Properties *)

(** The induction principle that reaches the entries of a directory. *)
Lemma node_tree_ind (P : node → Prop) :
  P File →
  (∀ t, P (Symlink t)) →
  (∀ w es, Forall (λ e, P e.2) es → P (Dir w es)) →
  ∀ n, P n.
Proof.
  intros HF HS HD.
  fix IH 1. intros [ | t | w es].
  - exact HF.
  - apply HS.
  - apply HD. induction es as [ | [k c] es IHes]; constructor.
    + apply IH.
    + exact IHes.
Qed.

Example Path_target_doc : Path "target/doc" = ["target"; "doc"].
Proof. reflexivity. Qed.

(** The sample run: [target/doc] is removed with what it holds, then the
    child is started, once, with [RUSTDOCFLAGS] overridden and [PATH] kept. *)
Example main_sample_run :
  (main (sample_child 0) sample_world).1 = Ret () ∧
  (calls (trace (main (sample_child 0) sample_world).2)).*1.*1 = [cargo_args] ∧
  (∀ c, c ∈ calls (trace (main (sample_child 0) sample_world).2) →
        c.1.2 !! "RUSTDOCFLAGS" = Some "--html-in-header ./katex.html" ∧
        c.1.2 !! "PATH" = Some "/usr/bin" ∧
        c.2 = sample_cleaned) ∧
  environ (main (sample_child 0) sample_world).2 !! "RUSTDOCFLAGS" = Some "-D warnings".
Proof.
  split_and!; try reflexivity.
  intros c Hc. vm_compute in Hc. apply list_elem_of_singleton in Hc. by subst c.
Qed.

(** A directory that does not let its entries go: the walk stops at the first
    entry it cannot remove, and what it has removed by then is gone. *)
Example rmtree_partial :
  rmtree_at ["target"; "doc"]
    (Dir true [("target", Dir true [("doc", Dir true [("a", File);
                                                     ("b", Dir false [("x", File)]);
                                                     ("c", File)])])]) =
  (Dir true [("target", Dir true [("doc", Dir true [("b", Dir false [("x", File)]);
                                                   ("c", File)])])],
   Some PermissionError).
Proof. reflexivity. Qed.

(** ** Directory entries *)

Lemma lookup_remove_entry_eq name es :
  lookup_entry name (remove_entry name es) = None.
Proof.
  unfold remove_entry.
  induction es as [ | [k c] es IH]; [done | ].
  rewrite filter_cons. simpl. case_decide as Hk; simpl.
  - case_decide; [congruence | exact IH].
  - exact IH.
Qed.

Lemma lookup_remove_entry_ne name k es :
  k ≠ name → lookup_entry k (remove_entry name es) = lookup_entry k es.
Proof.
  intros Hne. unfold remove_entry.
  induction es as [ | [k' c] es IH]; [done | ].
  rewrite filter_cons. simpl. case_decide as Hk; simpl.
  - case_decide; [done | exact IH].
  - case_decide; [ | exact IH]. destruct Hk. congruence.
Qed.

Lemma lookup_replace_entry_eq name n es :
  is_Some (lookup_entry name es) →
  lookup_entry name (replace_entry name n es) = Some n.
Proof.
  induction es as [ | [k c] es IH]; simpl.
  - intros [? ?]. discriminate.
  - intros H. case_decide as Hk; simpl.
    + rewrite decide_True; done.
    + rewrite decide_False; auto.
Qed.


Lemma remove_replace_entry_ne name k n es :
  k ≠ name →
  remove_entry name (replace_entry k n es) = replace_entry k n (remove_entry name es).
Proof.
  intros Hne. unfold remove_entry.
  induction es as [ | [k' c] es IH]; [done | ]. simpl.
  case_decide as Hk.
  - subst k'. rewrite !filter_cons. simpl.
    rewrite !decide_True by done. simpl. rewrite decide_True; done.
  - rewrite !filter_cons. simpl. case_decide; simpl.
    + rewrite decide_False by done. by rewrite IH.
    + exact IH.
Qed.

Lemma remove_remove_entry name k es :
  remove_entry name (remove_entry k es) = remove_entry k (remove_entry name es).
Proof.
  unfold remove_entry.
  induction es as [ | e es IH]; [done | ].
  rewrite !filter_cons.
  repeat (case_decide; rewrite ?filter_cons; simpl); congruence.
Qed.

(** ** [os.lstat] *)

Lemma lstat_app_raise p q n e :
  lstat p n = Raise e → lstat (p ++ q) n = Raise e.
Proof.
  revert n. induction p as [ | c p IH]; intros n; simpl; [done | ].
  destruct n as [ | t | w es]; try done.
  destruct (lookup_entry c es); [apply IH | done].
Qed.

(** ** [shutil.rmtree] *)

(** A walk that ends without an error has removed every entry. *)
Lemma rmtree_contents_done n n' :
  rmtree_contents n = (n', None) →
  ∃ w es, n = Dir w es ∧ n' = Dir w [].
Proof.
  revert n'. induction n as [ | t | w es IH] using node_tree_ind;
    intros n'; simpl; try discriminate.
  intros H. exists w, es. split; [done | ].
  assert (∀ es', rmtree_entries rmtree_contents w es = (es', None) → es' = [])
    as Hwalk.
  { clear H. induction IH as [ | [k c] es Hc _ IHes]; cbn [rmtree_entries]; intros es'.
    - by intros [= <-].
    - destruct c as [ | t | w' sub].
      + destruct w; [apply IHes | discriminate].
      + destruct w; [apply IHes | discriminate].
      + destruct (rmtree_contents (Dir w' sub)) as [c' [e | ]]; [discriminate | ].
        destruct w; [apply IHes | discriminate]. }
  destruct (rmtree_entries rmtree_contents w es) as [es' err] eqn:Hes.
  injection H as <- ->. by rewrite (Hwalk es' eq_refl).
Qed.

(** The equations of [lstat] and [rmtree_at] on a path of two components or
    more. *)
Lemma lstat_cons c p n :
  lstat (c :: p) n =
  match n with
  | Dir _ es =>
      match lookup_entry c es with
      | None => Raise FileNotFoundError
      | Some ch => lstat p ch
      end
  | _ => Raise NotADirectoryError
  end.
Proof. reflexivity. Qed.

Lemma rmtree_at_cons c c' p n :
  rmtree_at (c :: c' :: p) n =
  match n with
  | Dir w es =>
      match lookup_entry c es with
      | None => (n, Some FileNotFoundError)
      | Some ch =>
          let '(ch', err) := rmtree_at (c' :: p) ch in
          (Dir w (replace_entry c ch' es), err)
      end
  | _ => (n, Some NotADirectoryError)
  end.
Proof. reflexivity. Qed.

(** The outcome of [rmtree_at] by what [lstat] finds at the path: nothing, *)
Lemma rmtree_at_lstat_raise p n e :
  lstat p n = Raise e → (rmtree_at p n).2 = Some e.
Proof.
  revert n. induction p as [ | c p IH]; intros n; [done | ].
  destruct p as [ | c' p].
  - simpl. unfold rmtree_child. destruct n as [ | t | w es]; try by intros [= <-].
    destruct (lookup_entry c es); [done | by intros [= <-]].
  - rewrite lstat_cons, rmtree_at_cons.
    destruct n as [ | t | w es]; try by intros [= <-].
    destruct (lookup_entry c es) as [ch | ]; [ | by intros [= <-]].
    intros H. specialize (IH ch H).
    destruct (rmtree_at (c' :: p) ch) as [ch' err]. exact IH.
Qed.

(** or something that is not a directory. *)
Lemma rmtree_at_lstat_not_dir p n d :
  p ≠ [] → lstat p n = Ret d → is_dir d = false →
  (rmtree_at p n).2 =
  Some (match d with Symlink _ => OSError symlink_msg | _ => NotADirectoryError end).
Proof.
  intros Hp. revert n. induction p as [ | c p IH]; intros n; [done | clear Hp].
  destruct p as [ | c' p].
  - simpl. unfold rmtree_child. destruct n as [ | t | w es]; try done.
    destruct (lookup_entry c es) as [ch | ]; [ | done].
    intros [= ->]. by destruct d.
  - rewrite lstat_cons, rmtree_at_cons.
    destruct n as [ | t | w es]; try done.
    destruct (lookup_entry c es) as [ch | ]; [ | done].
    intros H Hd. specialize (IH ltac:(done) ch H Hd).
    destruct (rmtree_at (c' :: p) ch) as [ch' err]. exact IH.
Qed.

(** When [rmtree_at] ends without an error, there was a directory at the
    path and there is nothing at the path afterwards. *)
Lemma rmtree_at_done p n n' :
  rmtree_at p n = (n', None) →
  (∃ w es, lstat p n = Ret (Dir w es)) ∧ lstat p n' = Raise FileNotFoundError.
Proof.
  revert n n'. induction p as [ | c p IH]; intros n n'.
  - simpl. by destruct (rmtree_contents n) as [? [? | ]].
  - destruct p as [ | c' p].
    + simpl. unfold rmtree_child. destruct n as [ | t | w es]; try done.
      destruct (lookup_entry c es) as [[ | t | w' sub] | ] eqn:Hc; try done.
      destruct (rmtree_contents (Dir w' sub)) as [d' [e | ]]; [done | ].
      destruct w; [ | done]. intros [= <-]. split; [by eauto | ].
      simpl. by rewrite lookup_remove_entry_eq.
    + rewrite rmtree_at_cons, !lstat_cons.
      destruct n as [ | t | w es]; try done.
      destruct (lookup_entry c es) as [ch | ] eqn:Hc; [ | done].
      destruct (rmtree_at (c' :: p) ch) as [ch' err] eqn:Hch.
      intros [= <- ->]. destruct (IH _ _ Hch) as [Hdir Hgone].
      split; [exact Hdir | ].
      rewrite lookup_replace_entry_eq by (by rewrite Hc). exact Hgone.
Qed.

(** Another entry of the working directory does not matter to [lstat] and
    [rmtree_at], and is left as it is. *)
Lemma lstat_with_entry name o c p n :
  c ≠ name → lstat (c :: p) (with_entry name o n) = lstat (c :: p) n.
Proof.
  intros Hne. rewrite !lstat_cons. destruct n as [ | t | w es]; try done.
  simpl. destruct o; simpl; rewrite ?decide_False by done;
    by rewrite lookup_remove_entry_ne.
Qed.

Lemma lstat_with_entry_eq name o w es :
  lstat [name] (with_entry name o (Dir w es)) =
  match o with Some x => Ret x | None => Raise FileNotFoundError end.
Proof.
  simpl. destruct o; simpl.
  - by rewrite decide_True.
  - by rewrite lookup_remove_entry_eq.
Qed.

Lemma rmtree_at_with_entry name o c p n :
  c ≠ name →
  rmtree_at (c :: p) (with_entry name o n) =
  (with_entry name o (rmtree_at (c :: p) n).1, (rmtree_at (c :: p) n).2).
Proof.
  intros Hne.
  assert (∀ es, lookup_entry c
            (match o with
             | Some x => (name, x) :: remove_entry name es
             | None => remove_entry name es
             end) = lookup_entry c es) as Hlook.
  { intros es. destruct o; simpl; rewrite ?decide_False by done;
      by rewrite lookup_remove_entry_ne. }
  assert (∀ x es, replace_entry c x
            (match o with
             | Some y => (name, y) :: remove_entry name es
             | None => remove_entry name es
             end) =
          match o with
          | Some y => (name, y) :: remove_entry name (replace_entry c x es)
          | None => remove_entry name (replace_entry c x es)
          end) as Hrepl.
  { intros x es. destruct o; simpl; rewrite ?decide_False by done;
      by rewrite remove_replace_entry_ne. }
  destruct p as [ | c' p].
  - cbn [rmtree_at]. unfold rmtree_child. destruct n as [ | t | w es]; try done.
    cbn [with_entry]. rewrite Hlook.
    destruct (lookup_entry c es) as [[ | t | w' sub] | ]; try done.
    destruct (rmtree_contents (Dir w' sub)) as [d' [e | ]]; cbn [fst snd with_entry].
    + by rewrite Hrepl.
    + destruct w; cbn [fst snd with_entry]; [ | by rewrite Hrepl].
      do 2 f_equal. destruct o.
      * unfold remove_entry at 1. rewrite filter_cons. simpl.
        rewrite decide_True by done. f_equal. apply remove_remove_entry.
      * apply remove_remove_entry.
  - rewrite !rmtree_at_cons. destruct n as [ | t | w es]; try done.
    cbn [with_entry]. rewrite Hlook.
    destruct (lookup_entry c es) as [ch | ]; [ | done].
    destruct (rmtree_at (c' :: p) ch) as [ch' err]. cbn [fst snd with_entry].
    by rewrite Hrepl.
Qed.

(** ** The library calls and the two functions of the script, run *)

Lemma new_events_app {A} (m : M A) w (l : list event) :
  trace (m w).2 = trace w ++ l → new_events m w = l.
Proof. intros H. unfold new_events. rewrite H. apply drop_app_length. Qed.

Lemma calls_app (t1 t2 : list event) :
  calls (t1 ++ t2) = calls t1 ++ calls t2.
Proof. apply omap_app. Qed.

Lemma clean_dir_run w :
  clean_dir w =
  (match (rmtree_at ["target"; "doc"] (cwd w)).2 with
   | None => Ret ()
   | Some e => Raise e
   end,
   World (rmtree_at ["target"; "doc"] (cwd w)).1 (environ w) (objects w)
         (trace w ++ [EvRmtree ["target"; "doc"]])).
Proof.
  unfold clean_dir, shutil_rmtree. rewrite Path_target_doc.
  cbn [log cwd]. by destruct (rmtree_at ["target"; "doc"] (cwd w)) as [n' [e | ]].
Qed.

(** What [clean_dir] returning says about the tree before and after. *)
Lemma clean_dir_ret w :
  (clean_dir w).1 = Ret () →
  (∃ d es, lstat ["target"; "doc"] (cwd w) = Ret (Dir d es)) ∧
  lstat ["target"; "doc"] (cwd (clean_dir w).2) = Raise FileNotFoundError.
Proof.
  rewrite clean_dir_run. cbn [fst snd cwd].
  destruct (rmtree_at ["target"; "doc"] (cwd w)) as [n' [e | ]] eqn:Hrm;
    [done | intros _].
  exact (rmtree_at_done _ _ _ Hrm).
Qed.

Lemma clean_dir_raise w e :
  lstat ["target"; "doc"] (cwd w) = Raise e → (clean_dir w).1 = Raise e.
Proof.
  intros H. rewrite clean_dir_run. cbn [fst].
  by rewrite (rmtree_at_lstat_raise _ _ _ H).
Qed.

Lemma clean_dir_not_dir w n :
  lstat ["target"; "doc"] (cwd w) = Ret n → is_dir n = false →
  (clean_dir w).1 =
  Raise (match n with Symlink _ => OSError symlink_msg | _ => NotADirectoryError end).
Proof.
  intros H Hn. rewrite clean_dir_run. cbn [fst].
  assert (["target"; "doc"] ≠ []) as Hp by done.
  by rewrite (rmtree_at_lstat_not_dir _ _ _ Hp H Hn).
Qed.

(** Assignment through [os.environ] itself does reach the environment of the
    process: the model has the aliasing that [copy] is there to avoid. *)
Lemma setitem_environ k v w :
  environ (setitem Environ k v w).2 = <[k:=v]> (environ w).
Proof. reflexivity. Qed.

Section Properties.

Variable run_child : list string → dict → node → child_result * node.

Lemma cargo_doc_run w :
  cargo_doc run_child w =
  (match (run_child cargo_args (doc_env (environ w)) (cwd w)).1 with
   | NotStarted ex => Raise ex
   | Exited rc =>
       if decide (rc = 0) then Ret ()
       else Raise (CalledProcessError rc cargo_args)
   end,
   World (run_child cargo_args (doc_env (environ w)) (cwd w)).2
         (environ w)
         (objects w ++ [doc_env (environ w)])
         (trace w ++ [EvCheckCall cargo_args (doc_env (environ w)) (cwd w)])).
Proof.
  unfold cargo_doc, mbind, M_bind, copy, os_environ, setitem, check_call.
  cbn [deref set_objects objects cwd environ trace log set_cwd].
  replace (alter (insert "RUSTDOCFLAGS" "--html-in-header ./katex.html")
             (length (objects w)) (objects w ++ [environ w]))
    with (objects w ++ [doc_env (environ w)]).
  2:{ rewrite alter_app_r_alt by lia. by rewrite Nat.sub_diag. }
  rewrite list_lookup_middle by done. cbn [from_option]. unfold id.
  fold cargo_args.
  destruct (run_child cargo_args (doc_env (environ w)) (cwd w)) as [[ex | rc] n'];
    cbn [fst snd]; [done | ].
  by case_decide.
Qed.

Lemma main_run w :
  main run_child w =
  match (rmtree_at ["target"; "doc"] (cwd w)).2 with
  | None => cargo_doc run_child (clean_dir w).2
  | Some e => (Raise e, (clean_dir w).2)
  end.
Proof.
  unfold main, mbind, M_bind. rewrite clean_dir_run. cbn [fst snd].
  by destruct (rmtree_at ["target"; "doc"] (cwd w)).2.
Qed.

Lemma new_events_clean_dir w :
  new_events clean_dir w = [EvRmtree ["target"; "doc"]].
Proof. apply new_events_app. by rewrite clean_dir_run. Qed.

Lemma new_events_cargo_doc w :
  new_events (cargo_doc run_child) w =
  [EvCheckCall cargo_args (doc_env (environ w)) (cwd w)].
Proof. apply new_events_app. by rewrite cargo_doc_run. Qed.

Lemma new_events_main w :
  new_events (main run_child) w =
  EvRmtree ["target"; "doc"] ::
  match (clean_dir w).1 with
  | Ret _ => [EvCheckCall cargo_args (doc_env (environ w)) (cwd (clean_dir w).2)]
  | Raise _ => []
  end.
Proof.
  apply new_events_app. rewrite main_run, clean_dir_run. cbn [fst snd].
  destruct (rmtree_at ["target"; "doc"] (cwd w)).2 as [e | ]; [done | ].
  rewrite cargo_doc_run. cbn [snd trace environ cwd]. by rewrite <- app_assoc.
Qed.

Lemma main_raise w e :
  (clean_dir w).1 = Raise e →
  (main run_child w).1 = Raise e ∧
  new_events (main run_child) w = [EvRmtree ["target"; "doc"]].
Proof.
  intros H. rewrite new_events_main, H. split; [ | done].
  rewrite main_run. rewrite clean_dir_run in H. cbn [fst] in H.
  by destruct (rmtree_at ["target"; "doc"] (cwd w)).2; simplify_eq.
Qed.

Lemma main_ret w :
  (clean_dir w).1 = Ret () →
  main run_child w = cargo_doc run_child (clean_dir w).2.
Proof.
  intros H. rewrite main_run. rewrite clean_dir_run in H. cbn [fst] in H.
  by destruct (rmtree_at ["target"; "doc"] (cwd w)).2.
Qed.

Lemma environ_clean_dir w : environ (clean_dir w).2 = environ w.
Proof. by rewrite clean_dir_run. Qed.

(** ** The claims *)

(** C1.  The environment handed to the child is the environment of the
    script with [RUSTDOCFLAGS] set to ["--html-in-header ./katex.html"]:
    that variable has exactly this value, added or overridden, and every
    other variable has the value it has in the script's environment.  This
    holds of the one call that [cargo_doc] makes and of every call made in a
    run of the script. *)
Theorem cargo_doc_environment w :
  ∃ env : dict,
    calls (new_events (cargo_doc run_child) w) =
      [(["cargo"; "doc"; "--no-deps"], env, cwd w)] ∧
    env = <["RUSTDOCFLAGS" := "--html-in-header ./katex.html"]> (environ w) ∧
    env !! "RUSTDOCFLAGS" = Some "--html-in-header ./katex.html" ∧
    (∀ k, k ≠ "RUSTDOCFLAGS" → env !! k = environ w !! k) ∧
    Forall (λ c, c.1.2 = env) (calls (new_events (main run_child) w)).
Proof.
  exists (doc_env (environ w)). split_and!.
  - by rewrite new_events_cargo_doc.
  - done.
  - apply lookup_insert_eq.
  - intros k Hk. by apply lookup_insert_ne.
  - rewrite new_events_main. destruct (clean_dir w).1; repeat constructor.
Qed.

(** C2.  Where nothing is at [target/doc], the script raises the error of
    the removal, its exit status is not zero, and the only library call of
    the run is the [rmtree]: no child is started. *)
Theorem missing_doc_dir_aborts w :
  exists_path (Path "target/doc") (cwd w) = false →
  ∃ e, lstat (Path "target/doc") (cwd w) = Raise e ∧
       (main run_child w).1 = Raise e ∧
       exit_status (main run_child w).1 ≠ 0 ∧
       new_events (main run_child) w = [EvRmtree (Path "target/doc")] ∧
       calls (new_events (main run_child) w) = [].
Proof.
  rewrite Path_target_doc. unfold exists_path.
  destruct (lstat ["target"; "doc"] (cwd w)) as [n | e] eqn:Hl; [done | intros _].
  destruct (main_raise w e (clean_dir_raise _ _ Hl)) as [Hm Hev].
  exists e. rewrite Hm, Hev. done.
Qed.

(** C3.  The exit status is 0 exactly when [clean_dir] returns and the child
    then exits with 0.  When the child exits with another status, the script
    raises [CalledProcessError] with that status, uncaught, and exits with 1.
    No run makes more than one call of [check_call]. *)
Theorem exit_status_zero_iff w :
  (exit_status (main run_child w).1 = 0 ↔
     (clean_dir w).1 = Ret () ∧
     (run_child cargo_args (doc_env (environ w)) (cwd (clean_dir w).2)).1 = Exited 0) ∧
  (∀ rc, (clean_dir w).1 = Ret () →
         (run_child cargo_args (doc_env (environ w)) (cwd (clean_dir w).2)).1
           = Exited rc →
         rc ≠ 0 →
         (main run_child w).1 = Raise (CalledProcessError rc cargo_args) ∧
         exit_status (main run_child w).1 = 1) ∧
  (length (calls (new_events (main run_child) w)) ≤ 1)%nat.
Proof.
  split_and!.
  - destruct (clean_dir w).1 as [[] | e] eqn:Hc.
    + rewrite (main_ret _ Hc), cargo_doc_run, environ_clean_dir. cbn [fst].
      destruct (run_child _ _ _).1 as [ex | rc]; [by split; [ | intros [_ ?]] | ].
      case_decide as Hrc; [by subst rc | ].
      split; [done | ]. intros [_ [= ?]]. done.
    + destruct (main_raise _ _ Hc) as [-> _]. by split; [ | intros [? _]].
  - intros rc Hc Hrc Hne.
    rewrite (main_ret _ Hc), cargo_doc_run, environ_clean_dir. cbn [fst].
    rewrite Hrc. by rewrite decide_False.
  - rewrite new_events_main. destruct (clean_dir w).1; simpl; lia.
Qed.

(** C4.  The first library call of every run is the [rmtree] of
    [target/doc].  A call of [check_call] comes after it, and only when
    [clean_dir] has returned: the tree the child is started in is the tree
    that [clean_dir] left, with nothing at [target/doc]. *)
Theorem cleaner_runs_first w :
  ∃ rest,
    new_events (main run_child) w = EvRmtree (Path "target/doc") :: rest ∧
    Forall (λ ev, ∃ args env fs,
              ev = EvCheckCall args env fs ∧
              (clean_dir w).1 = Ret () ∧
              fs = cwd (clean_dir w).2 ∧
              exists_path (Path "target/doc") fs = false) rest.
Proof.
  rewrite Path_target_doc, new_events_main. eexists. split; [done | ].
  destruct (clean_dir w).1 as [[] | e] eqn:Hc; constructor; [ | done].
  destruct (clean_dir_ret _ Hc) as [_ Hgone].
  eexists _, _, _. split_and!; try done.
  unfold exists_path. by rewrite Hgone.
Qed.

(** C5.  Where [target/doc] is a directory and [clean_dir] returns, nothing
    is at [target/doc] afterwards, nor at any path below it. *)
Theorem clean_dir_removes w w' d :
  lstat (Path "target/doc") (cwd w) = Ret d →
  is_dir d = true →
  clean_dir w = (Ret (), w') →
  exists_path (Path "target/doc") (cwd w') = false ∧
  ∀ q, exists_path (Path "target/doc" ++ q) (cwd w') = false.
Proof.
  rewrite Path_target_doc. intros _ _ Hc.
  destruct (clean_dir_ret w) as [_ Hgone]; [by rewrite Hc | ].
  rewrite Hc in Hgone. cbn [snd] in Hgone. unfold exists_path.
  split; [by rewrite Hgone | ].
  intros q. by rewrite (lstat_app_raise _ q _ _ Hgone).
Qed.

(** C6.  [cargo_doc] makes one call of [check_call], with the argument
    vector [cargo doc --no-deps] and the modified environment, and returns
    only with what the child has done: its outcome is decided by the exit
    status of the child and the tree it leaves is the tree the child left.
    A run of the script starts no other child. *)
Theorem only_cargo_doc_is_started w :
  calls (new_events (cargo_doc run_child) w) =
    [(["cargo"; "doc"; "--no-deps"], doc_env (environ w), cwd w)] ∧
  (cargo_doc run_child w).1 =
    match (run_child ["cargo"; "doc"; "--no-deps"] (doc_env (environ w)) (cwd w)).1 with
    | NotStarted ex => Raise ex
    | Exited rc =>
        if decide (rc = 0) then Ret ()
        else Raise (CalledProcessError rc ["cargo"; "doc"; "--no-deps"])
    end ∧
  cwd (cargo_doc run_child w).2 =
    (run_child ["cargo"; "doc"; "--no-deps"] (doc_env (environ w)) (cwd w)).2 ∧
  Forall (λ c, c.1 = (["cargo"; "doc"; "--no-deps"], doc_env (environ w)))
         (calls (new_events (main run_child) w)) ∧
  (length (calls (new_events (main run_child) w)) ≤ 1)%nat.
Proof.
  rewrite new_events_cargo_doc, new_events_main, cargo_doc_run.
  split_and!; try done.
  - destruct (clean_dir w).1; repeat constructor.
  - destruct (clean_dir w).1; simpl; lia.
Qed.

(** C7.  In the tree that a child of the script is started in, nothing is
    at [target/doc] or an empty directory is. *)
Theorem doc_dir_absent_or_empty_at_start w args env fs :
  (args, env, fs) ∈ calls (new_events (main run_child) w) →
  absent_or_empty (Path "target/doc") fs = true.
Proof.
  rewrite Path_target_doc, new_events_main.
  destruct (clean_dir w).1 as [[] | e] eqn:Hc; simpl.
  - intros [= _ _ ->]%list_elem_of_singleton.
    destruct (clean_dir_ret _ Hc) as [_ Hgone].
    unfold absent_or_empty. by rewrite Hgone.
  - by intros ?%elem_of_nil.
Qed.

(** C8.  [cargo_doc] leaves the environment of the script as it was, every
    variable with the value it had: the override goes into a new [dict],
    which is added to the objects of the script, and the objects that were
    there stay as they were.  The same holds of a run of the script. *)
Theorem parent_environment_unchanged w :
  environ (cargo_doc run_child w).2 = environ w ∧
  (∀ k, environ (cargo_doc run_child w).2 !! k = environ w !! k) ∧
  objects (cargo_doc run_child w).2 = objects w ++ [doc_env (environ w)] ∧
  environ (main run_child w).2 = environ w.
Proof.
  split_and!; try by rewrite cargo_doc_run.
  rewrite main_run.
  destruct (rmtree_at ["target"; "doc"] (cwd w)).2; [apply environ_clean_dir | ].
  rewrite cargo_doc_run. apply environ_clean_dir.
Qed.

(** C9.  Where a regular file or a symbolic link is at [target/doc],
    [clean_dir] raises, the script raises the same exception, uncaught, its
    exit status is not zero, and the [rmtree] is the only library call of the
    run: no child is started. *)
Theorem doc_path_not_a_directory_aborts w n :
  lstat (Path "target/doc") (cwd w) = Ret n →
  is_dir n = false →
  ∃ e, (clean_dir w).1 = Raise e ∧
       (main run_child w).1 = Raise e ∧
       exit_status (main run_child w).1 ≠ 0 ∧
       new_events (main run_child) w = [EvRmtree (Path "target/doc")] ∧
       calls (new_events (main run_child) w) = [].
Proof.
  rewrite Path_target_doc. intros Hl Hn.
  pose proof (clean_dir_not_dir _ _ Hl Hn) as Hc.
  destruct (main_raise _ _ Hc) as [Hm Hev].
  eexists. rewrite Hc, Hm, Hev. done.
Qed.

(** C10.  Whether [./katex.html] is there plays no part in what
    the script itself does.  With the entry set to anything or removed,
    [clean_dir] has the same outcome and the calls of [check_call] have the
    same argument vectors and environments, so the script gets to its
    [check_call] in the one world exactly when it does in the other.  In every
    starting state in which [clean_dir] returns, the call is made, the string
    of [RUSTDOCFLAGS] being the only place where the file is named, and the
    script fails exactly when the child, started in the tree with the entry as
    set, does not exit with 0. *)
Theorem katex_is_never_consulted w o :
  (clean_dir (with_katex o w)).1 = (clean_dir w).1 ∧
  (calls (new_events (main run_child) (with_katex o w))).*1 =
    (calls (new_events (main run_child) w)).*1 ∧
  ((clean_dir w).1 = Ret () →
     let fs := with_entry "katex.html" o (cwd (clean_dir w).2) in
     calls (new_events (main run_child) (with_katex o w)) =
       [(cargo_args, doc_env (environ w), fs)] ∧
     ((main run_child (with_katex o w)).1 = Ret () ↔
        (run_child cargo_args (doc_env (environ w)) fs).1 = Exited 0)).
Proof.
  assert (clean_dir (with_katex o w) =
          ((clean_dir w).1, with_katex o (clean_dir w).2)) as Hclean.
  { rewrite !clean_dir_run. unfold with_katex, set_cwd. cbn [cwd environ objects trace fst snd].
    by rewrite rmtree_at_with_entry by done. }
  assert (new_events (main run_child) (with_katex o w) =
          EvRmtree ["target"; "doc"] ::
          match (clean_dir w).1 with
          | Ret _ => [EvCheckCall cargo_args (doc_env (environ w))
                        (with_entry "katex.html" o (cwd (clean_dir w).2))]
          | Raise _ => []
          end) as Hev.
  { rewrite new_events_main, Hclean. done. }
  split_and!.
  - by rewrite Hclean.
  - rewrite Hev, new_events_main. by destruct (clean_dir w).1.
  - intros Hc fs. rewrite Hev, Hc. split; [done | ].
    rewrite main_ret by (by rewrite Hclean). rewrite Hclean, cargo_doc_run.
    cbn [fst snd]. unfold with_katex at 1 2. cbn [environ cwd set_cwd]. fold fs.
    rewrite environ_clean_dir.
    destruct (run_child _ _ _).1 as [ex | rc]; [done | ].
    case_decide as Hrc; [by subst rc | ].
    split; [done | ]. intros [= ?]. done.
Qed.

End Properties.

(** ** The claims on the sample worlds *)

(** Nothing at [target/doc]: the script raises [FileNotFoundError] and starts
    no child. *)
Lemma missing_doc_dir_aborts_witness :
  exists_path (Path "target/doc") (cwd (world_with_doc None)) = false ∧
  ∃ e, lstat (Path "target/doc") (cwd (world_with_doc None)) = Raise e ∧
       (main (sample_child 0) (world_with_doc None)).1 = Raise e ∧
       exit_status (main (sample_child 0) (world_with_doc None)).1 ≠ 0 ∧
       new_events (main (sample_child 0)) (world_with_doc None) =
         [EvRmtree (Path "target/doc")] ∧
       calls (new_events (main (sample_child 0)) (world_with_doc None)) = [].
Proof.
  split; [reflexivity | ].
  apply (missing_doc_dir_aborts (sample_child 0) (world_with_doc None)).
  reflexivity.
Defined.

(** A child that exits with 3: [CalledProcessError 3], exit status 1. *)
Lemma exit_status_zero_iff_witness :
  (main (sample_child 3) sample_world).1 = Raise (CalledProcessError 3 cargo_args) ∧
  exit_status (main (sample_child 3) sample_world).1 = 1.
Proof.
  apply (proj1 (proj2 (exit_status_zero_iff (sample_child 3) sample_world)) 3).
  - reflexivity.
  - reflexivity.
  - lia.
Defined.

(** The sample tree: [target/doc] and the three levels below it are gone. *)
Lemma clean_dir_removes_witness :
  exists_path (Path "target/doc") sample_cleaned = false ∧
  ∀ q, exists_path (Path "target/doc" ++ q) sample_cleaned = false.
Proof.
  apply (clean_dir_removes sample_world
           (World sample_cleaned sample_environ [] [EvRmtree ["target"; "doc"]])
           sample_doc).
  - reflexivity.
  - reflexivity.
  - vm_compute. reflexivity.
Defined.

(** The one child of the sample run is started in the cleaned tree. *)
Lemma doc_dir_absent_or_empty_at_start_witness :
  (cargo_args, doc_env sample_environ, sample_cleaned)
    ∈ calls (new_events (main (sample_child 0)) sample_world) ∧
  absent_or_empty (Path "target/doc") sample_cleaned = true.
Proof.
  assert ((cargo_args, doc_env sample_environ, sample_cleaned)
            ∈ calls (new_events (main (sample_child 0)) sample_world)) as Hin.
  { vm_compute. constructor. }
  split; [exact Hin | ].
  exact (doc_dir_absent_or_empty_at_start (sample_child 0) sample_world _ _ _ Hin).
Defined.

(** A file at [target/doc], and a link to the file [katex.html]. *)
Lemma doc_path_not_a_directory_aborts_witness :
  (∃ e, (clean_dir (world_with_doc (Some File))).1 = Raise e ∧
        (main (sample_child 0) (world_with_doc (Some File))).1 = Raise e ∧
        exit_status (main (sample_child 0) (world_with_doc (Some File))).1 ≠ 0 ∧
        new_events (main (sample_child 0)) (world_with_doc (Some File)) =
          [EvRmtree (Path "target/doc")] ∧
        calls (new_events (main (sample_child 0)) (world_with_doc (Some File))) = []) ∧
  (∃ e, (clean_dir (world_with_doc (Some (Symlink "../katex.html")))).1 = Raise e ∧
        (main (sample_child 0) (world_with_doc (Some (Symlink "../katex.html")))).1
          = Raise e ∧
        exit_status
          (main (sample_child 0) (world_with_doc (Some (Symlink "../katex.html")))).1 ≠ 0 ∧
        new_events (main (sample_child 0))
          (world_with_doc (Some (Symlink "../katex.html"))) =
          [EvRmtree (Path "target/doc")] ∧
        calls (new_events (main (sample_child 0))
                 (world_with_doc (Some (Symlink "../katex.html")))) = []).
Proof.
  split.
  - apply (doc_path_not_a_directory_aborts (sample_child 0)
             (world_with_doc (Some File)) File); reflexivity.
  - apply (doc_path_not_a_directory_aborts (sample_child 0)
             (world_with_doc (Some (Symlink "../katex.html")))
             (Symlink "../katex.html")); reflexivity.
Defined.

(** The sample run without [./katex.html]: the call is made all the same. *)
Lemma katex_is_never_consulted_witness :
  calls (new_events (main (sample_child 0)) (with_katex None sample_world)) =
    [(cargo_args, doc_env sample_environ, with_entry "katex.html" None sample_cleaned)] ∧
  ((main (sample_child 0) (with_katex None sample_world)).1 = Ret () ↔
     (sample_child 0 cargo_args (doc_env sample_environ)
        (with_entry "katex.html" None sample_cleaned)).1 = Exited 0).
Proof.
  apply (proj2 (proj2 (katex_is_never_consulted (sample_child 0) sample_world None))).
  reflexivity.
Defined.

(** * More on the two steps *)

(** ** [shutil.rmtree] when it raises, and away from its path *)

Lemma replace_entry_id name ch es :
  lookup_entry name es = Some ch → replace_entry name ch es = es.
Proof.
  induction es as [ | [k c] es IH]; [done | ]. simpl.
  case_decide as Hk; [by intros [= ->] | ]. intros Hl. by rewrite IH.
Qed.

(** Where no directory is at the path, nothing is changed. *)
Lemma rmtree_at_no_dir p n :
  (∀ d, lstat p n = Ret d → is_dir d = false) → (rmtree_at p n).1 = n.
Proof.
  revert n. induction p as [ | c p IH]; intros n H.
  - specialize (H n eq_refl). by destruct n.
  - destruct p as [ | c' p].
    + simpl in *. unfold rmtree_child. destruct n as [ | t | w es]; try done.
      destruct (lookup_entry c es) as [ch | ]; [ | done].
      specialize (H ch eq_refl). by destruct ch.
    + rewrite rmtree_at_cons. rewrite lstat_cons in H.
      destruct n as [ | t | w es]; try done.
      destruct (lookup_entry c es) as [ch | ] eqn:Hc; [ | done].
      specialize (IH ch H).
      destruct (rmtree_at (c' :: p) ch) as [ch' err]. simpl in *. subst ch'.
      by rewrite replace_entry_id.
Qed.

(** An error leaves something at the path if something was there: the
    directory itself is removed last. *)
Lemma rmtree_at_raise_exists p n e :
  (rmtree_at p n).2 = Some e →
  exists_path p (rmtree_at p n).1 = exists_path p n.
Proof.
  unfold exists_path. revert n. induction p as [ | c p IH]; intros n; [done | ].
  destruct p as [ | c' p].
  - cbn [rmtree_at lstat]. unfold rmtree_child.
    destruct n as [ | t | w es]; try done.
    destruct (lookup_entry c es) as [[ | t | w' sub] | ] eqn:Hc;
      cbn [fst snd]; rewrite ?Hc; try done.
    destruct (rmtree_contents (Dir w' sub)) as [d' [e' | ]]; cbn [fst snd].
    + by rewrite lookup_replace_entry_eq by (by rewrite Hc).
    + destruct w; [done | ]. cbn [fst snd].
      by rewrite lookup_replace_entry_eq by (by rewrite Hc).
  - rewrite rmtree_at_cons, (lstat_cons c (c' :: p) n).
    destruct n as [ | t | w es]; try done.
    destruct (lookup_entry c es) as [ch | ] eqn:Hc; [ | by simpl; rewrite Hc].
    specialize (IH ch).
    destruct (rmtree_at (c' :: p) ch) as [ch' err]. cbn [fst snd] in *.
    intros He. rewrite lstat_cons.
    rewrite lookup_replace_entry_eq by (by rewrite Hc). by apply IH.
Qed.


(** A walk that ends without an error has found every directory that holds
    something ready to let its entries go. *)
Lemma rmtree_contents_none_emptiable n :
  (rmtree_contents n).2 = None → emptiable n = true.
Proof.
  induction n as [ | t | w es IH] using node_tree_ind; [done | done | ].
  cbn [rmtree_contents emptiable].
  assert ((rmtree_entries rmtree_contents w es).2 = None →
          forallb (λ e, w && emptiable e.2) es = true) as Hwalk.
  { induction IH as [ | [k c] es Hc _ IHes]; [done | ].
    cbn [rmtree_entries forallb snd]. cbn [snd] in Hc.
    destruct c as [ | t | w' sub].
    - destruct w; [exact IHes | done].
    - destruct w; [exact IHes | done].
    - destruct (rmtree_contents (Dir w' sub)) as [c' [e | ]]; [done | ].
      rewrite (Hc eq_refl), andb_true_r.
      destruct w; [exact IHes | done]. }
  destruct (rmtree_entries rmtree_contents w es) as [es' err]. exact Hwalk.
Qed.

(** [rmtree_at] ends without an error only where a directory that could be
    emptied was at the path, in a directory that let it go. *)
Lemma rmtree_at_none_only_if p n :
  (rmtree_at p n).2 = None →
  ∃ d, lstat p n = Ret d ∧ is_dir d = true ∧ emptiable d = true ∧
       parent_writable p n = true.
Proof.
  revert n. induction p as [ | c p IH]; intros n.
  - simpl. by destruct (rmtree_contents n) as [n' [e | ]].
  - destruct p as [ | c' p].
    + cbn [rmtree_at lstat parent_writable]. unfold rmtree_child.
      destruct n as [ | t | w es]; try done.
      destruct (lookup_entry c es) as [[ | t | w' sub] | ]; try done.
      pose proof (rmtree_contents_none_emptiable (Dir w' sub)) as He.
      destruct (rmtree_contents (Dir w' sub)) as [d' [e | ]]; [done | ].
      destruct w; [ | done]. intros _. exists (Dir w' sub). by rewrite He.
    + rewrite rmtree_at_cons, (lstat_cons c (c' :: p) n).
      change (parent_writable (c :: c' :: p) n) with
        (match n with
         | Dir _ es => match lookup_entry c es with
                       | Some ch => parent_writable (c' :: p) ch
                       | None => false
                       end
         | _ => false
         end).
      destruct n as [ | t | w es]; try done.
      destruct (lookup_entry c es) as [ch | ]; [ | done].
      specialize (IH ch).
      destruct (rmtree_at (c' :: p) ch) as [ch' err]. exact IH.
Qed.

(** ** The two steps of the script *)

(** Two environments that agree off [RUSTDOCFLAGS] give the child the same
    environment. *)
Lemma doc_env_ext (e1 e2 : dict) :
  (∀ k, k ≠ "RUSTDOCFLAGS" → e1 !! k = e2 !! k) → doc_env e1 = doc_env e2.
Proof.
  intros H. apply map_eq. intros k. unfold doc_env.
  destruct (decide (k = "RUSTDOCFLAGS")) as [-> | Hk].
  - by rewrite !lookup_insert_eq.
  - rewrite !lookup_insert_ne by done. by apply H.
Qed.

Section Steps.

Variable run_child : list string → dict → node → child_result * node.

Lemma main_raise_world w e :
  (clean_dir w).1 = Raise e → main run_child w = (Raise e, (clean_dir w).2).
Proof.
  intros H. rewrite main_run. rewrite clean_dir_run in H. cbn [fst] in H.
  destruct (rmtree_at ["target"; "doc"] (cwd w)).2; by simplify_eq.
Qed.

(** X1.  Whatever makes [clean_dir] raise, a refusal part of the way through
    the tree included, the script ends there with that exception: the world
    it leaves is the one [clean_dir] left, with what had been removed by then
    gone, and no child has been started. *)
Theorem clean_dir_failure_aborts w e :
  (clean_dir w).1 = Raise e →
  main run_child w = (Raise e, (clean_dir w).2) ∧
  calls (new_events (main run_child) w) = [].
Proof.
  intros H. split; [by apply main_raise_world | ].
  by rewrite new_events_main, H.
Qed.


(** X3.  Where no directory is at [target/doc] (nothing, a file or a link),
    the failing script leaves the whole tree as it was. *)
Theorem clean_dir_failure_unchanged w :
  (∀ d, lstat (Path "target/doc") (cwd w) = Ret d → is_dir d = false) →
  cwd (clean_dir w).2 = cwd w ∧ cwd (main run_child w).2 = cwd w.
Proof.
  rewrite Path_target_doc. intros H.
  assert (cwd (clean_dir w).2 = cwd w) as Hcwd.
  { rewrite clean_dir_run. cbn [snd cwd]. by apply rmtree_at_no_dir. }
  split; [exact Hcwd | ].
  assert (∃ e, (clean_dir w).1 = Raise e) as [e He].
  { destruct (lstat ["target"; "doc"] (cwd w)) as [d | e] eqn:Hl.
    - eexists. by apply (clean_dir_not_dir w d), H.
    - exists e. by apply clean_dir_raise. }
  by rewrite (main_raise_world _ _ He).
Qed.

(** X4.  When [clean_dir] raises, [target/doc] is still there if it was
    there: the directory itself is the last thing [rmtree] removes. *)
Theorem clean_dir_failure_keeps_doc w e :
  (clean_dir w).1 = Raise e →
  exists_path (Path "target/doc") (cwd (clean_dir w).2) =
  exists_path (Path "target/doc") (cwd w).
Proof.
  rewrite Path_target_doc, clean_dir_run. cbn [fst snd cwd].
  destruct (rmtree_at ["target"; "doc"] (cwd w)).2 as [e' | ] eqn:He; [ | done].
  intros _. by apply (rmtree_at_raise_exists _ _ e').
Qed.

(** X5.  [clean_dir] cannot be repeated: called again on the world it has
    returned in, it raises [FileNotFoundError]. *)
Theorem clean_dir_twice w :
  (clean_dir w).1 = Ret () →
  (clean_dir (clean_dir w).2).1 = Raise FileNotFoundError.
Proof.
  intros H. apply clean_dir_raise. by apply clean_dir_ret.
Qed.

(** X7.  The value that [RUSTDOCFLAGS] has in the environment of the script
    is thrown away: from two environments that agree on every other
    variable, [cargo_doc] starts the child with the same argument vector and
    the same environment. *)
Theorem rustdocflags_discarded w1 w2 :
  (∀ k, k ≠ "RUSTDOCFLAGS" → environ w1 !! k = environ w2 !! k) →
  (calls (new_events (cargo_doc run_child) w1)).*1 =
  (calls (new_events (cargo_doc run_child) w2)).*1.
Proof.
  intros H. rewrite !new_events_cargo_doc. cbn.
  by rewrite (doc_env_ext _ _ H).
Qed.

(** X9.  [clean_dir] returns only where it could: where [target] is not a
    symbolic link and [clean_dir] returns, a directory was at [target/doc],
    every directory in it that held something let its entries go, and
    [target] let its entries go.  So a directory in [target/doc] that holds
    something and does not let it go, or such a [target], makes [clean_dir]
    raise. *)
Theorem clean_dir_returns_only_if w :
  (∀ t, lstat ["target"] (cwd w) ≠ Ret (Symlink t)) →
  (clean_dir w).1 = Ret () →
  ∃ d, lstat (Path "target/doc") (cwd w) = Ret d ∧
       is_dir d = true ∧ emptiable d = true ∧
       parent_writable (Path "target/doc") (cwd w) = true.
Proof.
  rewrite Path_target_doc, clean_dir_run. cbn [fst]. intros _ H.
  apply rmtree_at_none_only_if.
  by destruct (rmtree_at ["target"; "doc"] (cwd w)).2.
Qed.

End Steps.

(** ** The two steps on the sample worlds *)

Lemma clean_dir_failure_aborts_witness :
  (clean_dir read_only_world).1 = Raise PermissionError ∧
  main (sample_child 0) read_only_world =
    (Raise PermissionError, (clean_dir read_only_world).2) ∧
  calls (new_events (main (sample_child 0)) read_only_world) = [].
Proof.
  split; [reflexivity | ].
  apply (clean_dir_failure_aborts (sample_child 0) read_only_world PermissionError).
  reflexivity.
Defined.


Lemma clean_dir_failure_unchanged_witness :
  cwd (clean_dir (world_with_doc (Some File))).2 = cwd (world_with_doc (Some File)) ∧
  cwd (main (sample_child 0) (world_with_doc (Some File))).2 =
    cwd (world_with_doc (Some File)).
Proof.
  apply (clean_dir_failure_unchanged (sample_child 0) (world_with_doc (Some File))).
  intros d Hd. vm_compute in Hd. injection Hd as <-. reflexivity.
Defined.

Lemma clean_dir_failure_keeps_doc_witness :
  (clean_dir locked_world).1 = Raise PermissionError ∧
  exists_path (Path "target/doc") (cwd (clean_dir locked_world).2) =
    exists_path (Path "target/doc") (cwd locked_world).
Proof.
  split; [reflexivity | ].
  apply (clean_dir_failure_keeps_doc locked_world PermissionError).
  reflexivity.
Defined.

Lemma clean_dir_twice_witness :
  (clean_dir sample_world).1 = Ret () ∧
  (clean_dir (clean_dir sample_world).2).1 = Raise FileNotFoundError.
Proof.
  split; [reflexivity | ].
  apply (clean_dir_twice sample_world). reflexivity.
Defined.

Lemma rustdocflags_discarded_witness :
  (calls (new_events (cargo_doc (sample_child 0)) sample_world)).*1 =
  (calls (new_events (cargo_doc (sample_child 0))
            (set_environ (delete "RUSTDOCFLAGS" sample_environ) sample_world))).*1.
Proof.
  apply (rustdocflags_discarded (sample_child 0) sample_world
           (set_environ (delete "RUSTDOCFLAGS" sample_environ) sample_world)).
  intros k Hk. symmetry. by apply lookup_delete_ne.
Defined.

Lemma clean_dir_returns_only_if_witness :
  ∃ d, lstat (Path "target/doc") (cwd sample_world) = Ret d ∧
       is_dir d = true ∧ emptiable d = true ∧
       parent_writable (Path "target/doc") (cwd sample_world) = true.
Proof.
  apply (clean_dir_returns_only_if sample_world).
  - intros t Ht. vm_compute in Ht. discriminate Ht.
  - reflexivity.
Defined.
